(** * node-vault-client: the Kubernetes authentication backend

    A shallow embedding of [src/auth/VaultKubernetesAuth.js] and of the
    collaborators its behaviour is stated against, followed by the
    properties of the specification that concern them.

    JavaScript values are an inductive type whose objects are finite maps;
    the effects of the code (logger calls, [console.log], file reads, calls
    of the request transport) are collected in a trace by a small
    writer-and-error monad; a promise is represented by the way it settles. *)

From stdpp Require Import gmap strings list fin_maps pretty.

Open Scope string_scope.

(** ** JavaScript values *)

Module JS.

#[warnings="-register-all"]
Inductive jsval : Type :=
  | JUndefined
  | JNull
  | JBool (b : bool)
  | JNum (z : Z)
  | JStr (s : string)
  | JObj (m : gmap string jsval).

(** Classes of failure the specification distinguishes (its section 7);
    [Unclassified] is every error that belongs to none of them. *)
Inductive errclass : Type :=
  | AuthError
  | TransportError
  | ConfigurationError
  | Unclassified.

(** What can be thrown, or reject a promise, in the code under study:
    - [SystemError code path]: the exception of [fs.readFileSync], by its
      [code] (ENOENT, EACCES, EISDIR, ...) and the [path] the call was
      given (the error object of Node repeats that path for most codes,
      not for EISDIR);
    - [TypeError prop v]: reading property [prop] of [v], which is
      [undefined] or [null];
    - [Raised c msg]: an error produced by a collaborator (the request
      transport, the inherited token-entity builder), passed through
      untouched. *)
Inductive jserror : Type :=
  | SystemError (code path : string)
  | TypeError (prop : string) (v : jsval)
  | Raised (c : errclass) (msg : string).

Definition classify (e : jserror) : errclass :=
  match e with
  | Raised c _ => c
  | SystemError _ _ | TypeError _ _ => Unclassified
  end.

(** ToBoolean, as used by [||]. *)
Definition truthy (v : jsval) : bool :=
  match v with
  | JUndefined | JNull => false
  | JBool b => b
  | JNum z => negb (z =? 0)%Z
  | JStr s => negb (String.eqb s "")
  | JObj _ => true
  end.

(** [a || b] *)
Definition or_else (a b : jsval) : jsval := if truthy a then a else b.

(** ToString, as used by a template literal [`${v}`]. A number is an
    integer here and is printed in decimal, as JavaScript prints the
    integers of magnitude below 1e21; larger ones, which JavaScript prints
    with an exponent, are outside what is modelled. *)
Definition to_string (v : jsval) : string :=
  match v with
  | JUndefined => "undefined"
  | JNull => "null"
  | JBool true => "true"
  | JBool false => "false"
  | JNum z => pretty z
  | JStr s => s
  | JObj _ => "[object Object]"
  end.

(** [v.prop]: a [TypeError] on [undefined] and [null], the stored value
    or [undefined] on an object, and [undefined] on the other primitives
    (none of the property names read by the code under study exists on
    the prototypes of booleans, numbers or strings). *)
Definition get_prop (v : jsval) (prop : string) : jserror + jsval :=
  match v with
  | JUndefined | JNull => inl (TypeError prop v)
  | JObj m => inr (default JUndefined (m !! prop))
  | JBool _ | JNum _ | JStr _ => inr JUndefined
  end.

(** [hay] contains [needle] as a substring. *)
Fixpoint contains (needle hay : string) : bool :=
  String.prefix needle hay
  || match hay with
     | EmptyString => false
     | String _ rest => contains needle rest
     end.

End JS.

Import JS.

(** ** Effects *)

Inductive level : Type := Info | Debug.

(** The sinks and collaborators the code talks to, in one trace:
    - [LoggerCall lvl fmt args]: [this._log.<lvl>(fmt, ...args)];
    - [ConsoleLog line]: [console.log(line)], that is standard output;
    - [ReadFile path]: [fs.readFileSync(path)];
    - [ApiRequest method path body]:
      [this.__apiClient.makeRequest(method, path, body)]. *)
Inductive event : Type :=
  | LoggerCall (lvl : level) (fmt : string) (args : list jsval)
  | ConsoleLog (line : string)
  | ReadFile (path : string)
  | ApiRequest (method path : string) (body : jsval).

(** Writer over the trace, with exceptions. *)
Definition Eff (A : Type) : Type := list event * (jserror + A).

Definition ret {A} (a : A) : Eff A := ([], inr a).

Definition throw {A} (e : jserror) : Eff A := ([], inl e).

Definition emit (ev : event) : Eff unit := ([ev], inr tt).

Definition lift {A} (r : jserror + A) : Eff A := ([], r).

Definition bind {A B} (m : Eff A) (f : A -> Eff B) : Eff B :=
  match m with
  | (t, inl e) => (t, inl e)
  | (t, inr a) => let '(t', r) := f a in ((t ++ t')%list, r)
  end.

Notation "'do' x <- m ; k" := (bind m (fun x => k))
  (at level 10, x name, m at level 100, k at level 200).

(** How a call that returns a promise ends: the promise is fulfilled, the
    promise is rejected, or the call throws before any promise exists. *)
Inductive outcome (A : Type) : Type :=
  | Resolved (a : A)
  | Rejected (e : jserror)
  | Thrown (e : jserror).
Arguments Resolved {A} a.
Arguments Rejected {A} e.
Arguments Thrown {A} e.

(** A [.then] chain started from an already available value: an exception
    in a callback rejects the resulting promise. *)
Definition settle {A} (r : jserror + A) : outcome A :=
  match r with
  | inl e => Rejected e
  | inr a => Resolved a
  end.

(** ** Collaborators *)

(** The request transport (VaultApiClient, not under src/): its
    [makeRequest(method, path, body)] either yields the parsed response or
    fails with an error of its own. *)
Record VaultApiClient : Type := {
  makeRequest : string -> string -> jsval -> jserror + jsval
}.

(** The injected logger; only the calls made on it are observed. *)
Inductive Logger : Type := InjectedLogger (name : string).

(** Node's [fs] module: [readFileSync(path).toString()] is the text of the
    file, or the call throws with a system error code. *)
Record FileSystem : Type := {
  readFile : string -> string + string
}.

Definition readFileSync (fs : FileSystem) (path : string) : Eff string :=
  do _ <- emit (ReadFile path);
  match readFile fs path with
  | inl code => throw (SystemError code path)
  | inr text => ret text
  end.

(** Modelled from the spec: the Token Entity of section 3 (the class that
    implements it is not under src/). *)
Record TokenEntity : Type := {
  credential : string;
  issuedAt : Z;
  leaseDuration : Z;
  renewable : bool;
  period : option Z
}.

(** Modelled from the spec: the constructor of VaultBaseAuth, which is not
    under src/. Section 4.1: each backend receives the Request Transport and
    a mount-point name at construction. It keeps what it is given and does
    no input or output. *)
Record VaultBaseAuth : Type := {
  __apiClient : VaultApiClient;
  _log : Logger;
  _mount : jsval
}.

Definition VaultBaseAuth_constructor
    (apiClient : VaultApiClient) (logger : Logger) (mount : jsval)
    : Eff VaultBaseAuth :=
  ret {| __apiClient := apiClient; _log := logger; _mount := mount |}.

(** ** VaultKubernetesAuth *)

Record VaultKubernetesAuth : Type := {
  base : VaultBaseAuth;
  __role : jsval;
  __filePath : string
}.

Definition serviceaccount_token_path : string :=
  "/var/run/secrets/kubernetes.io/serviceaccount/token".

(** [this.__roleId]: no constructor assigns this property, so reading it
    gives [undefined]. *)
Definition __roleId (this : VaultKubernetesAuth) : jsval := JUndefined.

(** [constructor(apiClient, logger, config, mount)] *)
Definition constructor
    (apiClient : VaultApiClient) (logger : Logger) (config mount : jsval)
    : Eff VaultKubernetesAuth :=
  do super <- VaultBaseAuth_constructor apiClient logger
                (or_else mount (JStr "kubernetes"));
  do role <- lift (get_prop config "role");
  ret {| base := super;
         __role := role;
         __filePath := serviceaccount_token_path |}.

(** The body sent to the login endpoint: [{role: this.__role, jwt}]. *)
Definition login_body (role : jsval) (jwt : string) : jsval :=
  JObj (<["role" := role]> (<["jwt" := JStr jwt]> ∅)).

Definition login_path (mount : jsval) : string :=
  "/auth/" ++ to_string mount ++ "/login".

Section Authenticate.

(** [this._getTokenEntity], inherited from VaultBaseAuth and not under
    src/: taken as a parameter. Whatever input or output it does is its
    own and is not part of the trace below, which holds the effects of the
    statements of [_authenticate] itself; [_authenticate_traced] further
    down has the effects of the builder in the trace as well. *)
Variable _getTokenEntity : jsval -> jserror + TokenEntity.

Variable fs : FileSystem.

(** The first callback: [(jwt) => { console.log(...); return makeRequest(...) }] *)
Definition then_login (this : VaultKubernetesAuth) (jwt : string) : Eff jsval :=
  do _ <- emit (ConsoleLog ("File is contains token " ++ jwt));
  do _ <- emit (ApiRequest "POST" (login_path (_mount (base this)))
              (login_body (__role this) jwt));
  lift (makeRequest (__apiClient (base this)) "POST"
          (login_path (_mount (base this)))
          (login_body (__role this) jwt)).

(** The second callback:
    [(res) => { this._log.debug(..., res.auth.client_token);
                return this._getTokenEntity(res.auth.client_token) }] *)
Definition then_entity (res : jsval) : Eff TokenEntity :=
  do auth <- lift (get_prop res "auth");
  do client_token <- lift (get_prop auth "client_token");
  do _ <- emit (LoggerCall Debug "receive token: %s" [client_token]);
  lift (_getTokenEntity client_token).

(** [_authenticate()]: the logger call and the file read happen before
    [Promise.resolve] is reached, so an exception there is thrown to the
    caller; the two callbacks run in the promise chain. *)
Definition _authenticate (this : VaultKubernetesAuth)
    : list event * outcome TokenEntity :=
  match
    do _ <- emit (LoggerCall Info "making authentication request: role_id=%s"
                [__roleId this]);
    readFileSync fs (__filePath this)
  with
  | (t, inl e) => (t, Thrown e)
  | (t, inr jwt) =>
      let '(t', r) := (do res <- then_login this jwt; then_entity res) in
      ((t ++ t')%list, settle r)
  end.

End Authenticate.

(** ** [_authenticate] with the effects of the inherited builder

    [this._getTokenEntity] is code of VaultBaseAuth, which is not under
    src/. Above it is a parameter that only answers; here it is a parameter
    that also acts: whatever it logs, reads or requests through the
    transport (a token lookup, for one) enters the trace, after the debug
    line and before the promise settles. The function is the same code,
    statement by statement. *)

Section AuthenticateTraced.

Variable _getTokenEntity : jsval -> Eff TokenEntity.

Variable fs : FileSystem.

(** The second callback, the builder's effects included. *)
Definition then_entity_traced (res : jsval) : Eff TokenEntity :=
  do auth <- lift (get_prop res "auth");
  do client_token <- lift (get_prop auth "client_token");
  do _ <- emit (LoggerCall Debug "receive token: %s" [client_token]);
  _getTokenEntity client_token.

(** [_authenticate()], the builder's effects included. *)
Definition _authenticate_traced (this : VaultKubernetesAuth)
    : list event * outcome TokenEntity :=
  match
    do _ <- emit (LoggerCall Info "making authentication request: role_id=%s"
                    [__roleId this]);
    readFileSync fs (__filePath this)
  with
  | (t, inl e) => (t, Thrown e)
  | (t, inr jwt) =>
      let '(t', r) :=
        (do res <- then_login this jwt; then_entity_traced res) in
      ((t ++ t')%list, settle r)
  end.

End AuthenticateTraced.

(** ** Observations on a trace *)

Definition is_logger_call (ev : event) : bool :=
  match ev with LoggerCall _ _ _ => true | _ => false end.

Definition is_log (ev : event) : bool :=
  match ev with LoggerCall _ _ _ | ConsoleLog _ => true | _ => false end.

Definition is_request (ev : event) : bool :=
  match ev with ApiRequest _ _ _ => true | _ => false end.

Definition is_file_read (ev : event) : bool :=
  match ev with ReadFile _ => true | _ => false end.

(** Everything written to a log: the injected logger and standard output. *)
Definition log_output (tr : list event) : list event := filter is_log tr.

(** What the injected logger received. *)
Definition logger_output (tr : list event) : list event :=
  filter is_logger_call tr.

Definition requests (tr : list event) : list event := filter is_request tr.

Definition file_reads (tr : list event) : list event := filter is_file_read tr.

(** The text [secret] occurs in what a log entry carries: its line, its
    format or one of its string arguments. *)
Definition mentions (secret : string) (ev : event) : bool :=
  match ev with
  | LoggerCall _ fmt args =>
      contains secret fmt
      || existsb (fun a => match a with
                           | JStr s => contains secret s
                           | _ => false
                           end) args
  | ConsoleLog line => contains secret line
  | ReadFile _ | ApiRequest _ _ _ => false
  end.

(** The class of the error a call ended with, if it failed. *)
Definition failure_class {A} (o : outcome A) : option errclass :=
  match o with
  | Resolved _ => None
  | Rejected e | Thrown e => Some (classify e)
  end.

(** The request of the first callback, as an entry of the trace. *)
Definition login_request (this : VaultKubernetesAuth) (jwt : string) : event :=
  ApiRequest "POST" (login_path (_mount (base this)))
    (login_body (__role this) jwt).

(** The first entry of every trace of [_authenticate]. *)
Definition info_line (this : VaultKubernetesAuth) : event :=
  LoggerCall Info "making authentication request: role_id=%s" [__roleId this].

(** * Collaborators that are not under src/

    The Client Facade, the configuration injection and the Token Lifecycle
    Manager are only described by the specification (and exercised by
    [test/e2e.test.js]); they are modelled from its words. *)

(** ** Client Facade and secret store *)

Module Facade.

(** Modelled from the spec: the secret store behind the Request Transport
    (an external system) as far as sections 4.3 and 6 describe it: secrets
    live at paths, and a request is served only when it carries a
    credential the store accepts. *)
Record Store : Type := {
  secrets : gmap string jsval;
  accepted : gset string
}.

Inductive request : Type :=
  | ReadSecret (path : string)
  | WriteSecret (path : string) (data : jsval).

(** Modelled from the spec: one call of the Request Transport with a token
    attached. A credential the store does not accept gives an
    authorization failure; a write stores the data at the path; a read
    gives what is stored there, and fails when nothing is. *)
Definition transport (token : string) (rq : request) (st : Store)
    : Store * (jserror + jsval) :=
  if decide (token ∈ accepted st) then
    match rq with
    | WriteSecret path data =>
        ({| secrets := <[path := data]> (secrets st);
            accepted := accepted st |}, inr JUndefined)
    | ReadSecret path =>
        (st, match secrets st !! path with
             | Some data => inr data
             | None => inl (Raised Unclassified "not found")
             end)
    end
  else (st, inl (Raised AuthError "permission denied")).

Definition is_authorization_failure (e : jserror) : bool :=
  match classify e with AuthError => true | _ => false end.

(** Modelled from the spec: the Client Facade of section 4.3 with the token
    it caches; [authenticate] is the contract of section 4.1. *)
Record Client : Type := {
  authenticate : Store -> jserror + TokenEntity;
  currentToken : option TokenEntity
}.

Definition with_token (c : Client) (t : option TokenEntity) : Client :=
  {| authenticate := authenticate c; currentToken := t |}.

(** Modelled from the spec: the Token backend, which synthesizes the entity
    from the configured credential without a network call. A lease of 0 is
    a credential that does not expire. *)
Definition token_backend (token : string) : Store -> jserror + TokenEntity :=
  fun _ => inr {| credential := token; issuedAt := 0; leaseDuration := 0;
                  renewable := false; period := None |}.

(** "Obtains a valid token snapshot": the cached token, or a fresh
    authentication whose result is cached. *)
Definition getToken (c : Client) (st : Store) : Client * (jserror + TokenEntity) :=
  match currentToken c with
  | Some t => (c, inr t)
  | None =>
      match authenticate c st with
      | inr t => (with_token c (Some t), inr t)
      | inl e => (c, inl e)
      end
  end.

(** Modelled from the spec (4.3): obtain a token, delegate to the transport
    with it; an authorization failure invalidates the cached token and
    forces one re-authentication attempt, after which the request is made
    once more; every other error propagates at once. *)
Definition perform (c : Client) (st : Store) (rq : request)
    : Client * Store * (jserror + jsval) :=
  match getToken c st with
  | (c1, inl e) => (c1, st, inl e)
  | (c1, inr t) =>
      match transport (credential t) rq st with
      | (st1, inr v) => (c1, st1, inr v)
      | (st1, inl e) =>
          if is_authorization_failure e then
            match getToken (with_token c1 None) st1 with
            | (c2, inl _) => (c2, st1, inl e)
            | (c2, inr t') =>
                let '(st2, r) := transport (credential t') rq st1 in
                (c2, st2, r)
            end
          else (c1, st1, inl e)
      end
  end.

(** [write(path, data) -> void] *)
Definition write (c : Client) (st : Store) (path : string) (data : jsval)
    : Client * Store * (jserror + unit) :=
  match perform c st (WriteSecret path data) with
  | (c', st', inr _) => (c', st', inr tt)
  | (c', st', inl e) => (c', st', inl e)
  end.

(** [read(path) -> SecretData] *)
Definition read (c : Client) (st : Store) (path : string)
    : Client * Store * (jserror + jsval) :=
  perform c st (ReadSecret path).

End Facade.

(** ** Configuration injection *)

Module Injection.

(** A configuration tree is a JavaScript object; its leaves are the values
    that are not objects. *)
Definition is_leaf (v : jsval) : bool :=
  match v with JObj _ => false | _ => true end.

(** The value at a path of keys, if the path exists. *)
Fixpoint get_at (p : list string) (c : jsval) : option jsval :=
  match p with
  | [] => Some c
  | k :: p' =>
      match c with
      | JObj m => match m !! k with Some c' => get_at p' c' | None => None end
      | _ => None
      end
  end.

(** The leaf at a path, if the path ends on a leaf. *)
Definition leaf_at (p : list string) (c : jsval) : option jsval :=
  match get_at p c with
  | Some v => if is_leaf v then Some v else None
  | None => None
  end.

(** Modelled from the spec (section 6), which overwrites the matching
    leaves of an existing configuration object: the leaf at path [p]
    becomes [v]; a path that does not end on a leaf of the configuration
    matches nothing. *)
Fixpoint set_leaf (p : list string) (v : jsval) (c : jsval) : jsval :=
  match p with
  | [] => if is_leaf c then v else c
  | k :: p' =>
      match c with
      | JObj m =>
          match m !! k with
          | Some c' => JObj (<[k := set_leaf p' v c']> m)
          | None => c
          end
      | _ => c
      end
  end.

(** One line of the mapping: a configuration-tree path, and the secret-store
    path and field its value comes from. *)
Record entry : Type := {
  target : list string;
  secret_path : string;
  field : string
}.

(** The fetched value of an entry: the field of the secret stored at the
    path; nothing when the secret or the field does not exist. *)
Definition resolve (secrets : gmap string jsval) (e : entry) : option jsval :=
  match secrets !! secret_path e with
  | Some (JObj data) => data !! field e
  | _ => None
  end.

Definition inject_entry (secrets : gmap string jsval) (c : jsval) (e : entry)
    : jsval :=
  match resolve secrets e with
  | Some v => set_leaf (target e) v c
  | None => c
  end.

(** Modelled from the spec: injection of the fetched secrets into the
    configuration, entry after entry. *)
Definition inject (secrets : gmap string jsval) (mapping : list entry)
    (c : jsval) : jsval :=
  foldl (inject_entry secrets) c mapping.

End Injection.

Import Injection.

(** ** Token Lifecycle Manager *)

Module Lifecycle.

(** Modelled from the spec: the states of the Token Lifecycle Manager of
    section 4.2 (the manager is not under src/). In [Renewing t calling] the
    flag tells whether a renew call is in flight ([true]) or the last
    attempt failed and its retry waits for the backoff timer ([false]).
    [Expired] is a transient marker there and is not a state of its own. *)
Inductive phase : Type :=
  | Unauthenticated
  | Authenticating
  | Valid (t : TokenEntity)
  | Renewing (t : TokenEntity) (calling : bool).

(** The two kinds of backend network call. *)
Inductive operation : Type := Login | Renew.

Definition result : Type := jserror + TokenEntity.

(** The manager with the bookkeeping needed to observe it: the callers that
    await the pending result, the backend calls started (latest first), how
    many of them have completed, and what each caller was handed. *)
Record manager : Type := {
  state : phase;
  waiters : list nat;
  issued : list operation;
  settled : nat;
  delivered : list (nat * result)
}.

(** What can happen to the manager: a caller asks for a valid token; the
    call in flight completes with [r], [lease_left] telling whether the
    lease of the cached token still has time left at that moment; a timer
    of the manager fires (the renewal timer, or the backoff timer of a
    retry). Callers run concurrently, so these arrive in any order. *)
Inductive input : Type :=
  | GetToken (caller : nat)
  | Settled (r : result) (lease_left : bool)
  | TimerFired.

Definition initial : manager :=
  {| state := Unauthenticated; waiters := []; issued := []; settled := 0;
     delivered := [] |}.


(** A backend call is in flight. *)
Definition calling (m : manager) : bool :=
  match state m with
  | Authenticating | Renewing _ true => true
  | Unauthenticated | Valid _ | Renewing _ false => false
  end.


(** The pending result [r] reaches every waiter, and the manager moves to
    state [s]. *)
Definition conclude (m : manager) (r : result) (s : phase) : manager :=
  {| state := s; waiters := [];
     issued := issued m; settled := S (settled m);
     delivered := (map (fun c => (c, r)) (waiters m) ++ delivered m)%list |}.

(** A backend call is started, and the manager moves to state [s]. *)
Definition start (m : manager) (op : operation) (s : phase) : manager :=
  {| state := s; waiters := waiters m;
     issued := op :: issued m; settled := settled m;
     delivered := delivered m |}.

Definition enqueue (m : manager) (c : nat) : manager :=
  {| state := state m; waiters := c :: waiters m;
     issued := issued m; settled := settled m;
     delivered := delivered m |}.

(** Modelled from the spec (4.2).
    - A request in [Unauthenticated] starts the one authentication; a
      request while authenticating or renewing joins the waiters of the
      pending result; a request in [Valid] is handed the cached token.
    - When the authentication completes, every waiter receives its result:
      success caches the entity, failure leaves the manager
      unauthenticated.
    - The renewal timer starts a renew call for a renewable token with a
      positive lease. When it succeeds, the refreshed entity replaces the
      cached one and reaches the waiters. When it fails while the lease has
      time left, the manager stays in [Renewing] and retries when the
      backoff timer fires, the waiters still waiting; when it fails with
      the lease expired, the manager becomes unauthenticated and the error
      propagates to the waiters (section 7: all errors propagate as
      rejected operations), so that no expired token is ever handed out. *)
Definition step (m : manager) (i : input) : manager :=
  match i, state m with
  | GetToken c, Unauthenticated =>
      start (enqueue m c) Login Authenticating
  | GetToken c, (Authenticating | Renewing _ _) => enqueue m c
  | GetToken c, Valid t =>
      {| state := state m; waiters := waiters m;
         issued := issued m; settled := settled m;
         delivered := (c, inr t) :: delivered m |}
  | Settled (inr t) _, Authenticating => conclude m (inr t) (Valid t)
  | Settled (inl e) _, Authenticating => conclude m (inl e) Unauthenticated
  | Settled (inr t') _, Renewing _ true => conclude m (inr t') (Valid t')
  | Settled (inl e) true, Renewing t true =>
      {| state := Renewing t false; waiters := waiters m;
         issued := issued m; settled := S (settled m);
         delivered := delivered m |}
  | Settled (inl e) false, Renewing _ true =>
      conclude m (inl e) Unauthenticated
  | Settled _ _, (Unauthenticated | Valid _ | Renewing _ false) => m
  | TimerFired, Valid t =>
      if renewable t && (0 <? leaseDuration t)%Z
      then start m Renew (Renewing t true)
      else m
  | TimerFired, Renewing t false => start m Renew (Renewing t true)
  | TimerFired, (Unauthenticated | Authenticating | Renewing _ true) => m
  end.

Definition run (m : manager) (inputs : list input) : manager :=
  foldl step m inputs.

End Lifecycle.

Import Lifecycle.

(** The bookkeeping invariant: the calls started are the calls completed,
    plus one exactly when a backend call is in flight. *)
Definition accounted (m : manager) : Prop :=
  length (issued m) = settled m + (if calling m then 1 else 0).

(** ** Concrete environments used in examples *)

Module Fixtures.

Definition entity_of (tok : jsval) : jserror + TokenEntity :=
  match tok with
  | JStr s => inr {| credential := s; issuedAt := 0; leaseDuration := 60;
                     renewable := true; period := None |}
  | _ => inl (Raised AuthError "permission denied")
  end.

(** A pod with a mounted service-account token. *)
Definition pod_fs (jwt : string) : FileSystem :=
  {| readFile p := if String.eqb p serviceaccount_token_path
                   then inr jwt else inl "ENOENT" |}.

(** A machine without the service-account file. *)
Definition bare_fs : FileSystem := {| readFile _ := inl "ENOENT" |}.

Definition login_response (tok : string) : jsval :=
  JObj {[ "auth" := JObj {[ "client_token" := JStr tok ]} ]}.

(** A store that accepts every login with the same client token. *)
Definition store (tok : string) : VaultApiClient :=
  {| makeRequest _ _ _ := inr (login_response tok) |}.

Definition logger : Logger := InjectedLogger "vault".

Definition k8s (role : jsval) : VaultKubernetesAuth :=
  {| base := {| __apiClient := store "s.tok"; _log := logger;
                _mount := JStr "kubernetes" |};
     __role := role;
     __filePath := serviceaccount_token_path |}.

(** The Token backend of the scenario of section 8, before its first call,
    and a store that accepts its credential. *)
Definition token_client : Facade.Client :=
  {| Facade.authenticate := Facade.token_backend "T1";
     Facade.currentToken := None |}.

Definition empty_store : Facade.Store :=
  {| Facade.secrets := ∅; Facade.accepted := {[ "T1" ]} |}.

(** The configuration, the secrets and the mapping of the end-to-end test
    "should fill node-config". *)
Definition base_config : jsval :=
  JObj {[ "deep" := JObj {[ "aStr" := JStr ""; "aInt" := JNum 0 ]};
          "b" := JStr "NOT WORKING" ]}.

Definition test_secrets : gmap string jsval :=
  {[ "secret/a" := JObj {[ "tstStr" := JStr "testData";
                           "tstInt" := JNum 12345 ]};
     "secret/b" := JObj {[ "tst" := JStr "ZZZ" ]} ]}.

Definition full_mapping : list entry :=
  [ {| target := ["deep"; "aStr"]; secret_path := "secret/a";
       field := "tstStr" |};
    {| target := ["deep"; "aInt"]; secret_path := "secret/a";
       field := "tstInt" |};
    {| target := ["b"]; secret_path := "secret/b"; field := "tst" |} ].

End Fixtures.

(** ** Environments for the edge cases *)

Module EdgeFixtures.

(** A store that cannot be reached. *)
Definition down_store : VaultApiClient :=
  {| makeRequest _ _ _ := inl (Raised TransportError "ECONNREFUSED") |}.

(** A store that answers every request with [res]. *)
Definition store_answering (res : jsval) : VaultApiClient :=
  {| makeRequest _ _ _ := inr res |}.

(** A backend as the constructor leaves it, for a given transport, mount
    and role. *)
Definition k8s_on (apiClient : VaultApiClient) (mount role : jsval)
    : VaultKubernetesAuth :=
  {| base := {| __apiClient := apiClient; _log := Fixtures.logger;
                _mount := or_else mount (JStr "kubernetes") |};
     __role := role;
     __filePath := serviceaccount_token_path |}.

(** An entity builder that rejects every token. *)
Definition no_entity (tok : jsval) : jserror + TokenEntity :=
  inl (Raised AuthError "permission denied").

(** An entity builder that looks the token up at the store before it
    answers, as a builder that needs the lease of the token does. *)
Definition lookup_entity (tok : jsval) : Eff TokenEntity :=
  do _ <- emit (ApiRequest "GET" "/auth/token/lookup-self" JNull);
  lift (Fixtures.entity_of tok).

End EdgeFixtures.

(** * Properties *)

(** ** Equations of the embedding *)

Lemma constructor_eq apiClient logger config mount :
  constructor apiClient logger config mount =
  ([], match get_prop config "role" with
       | inl e => inl e
       | inr role =>
           inr {| base := {| __apiClient := apiClient; _log := logger;
                             _mount := or_else mount (JStr "kubernetes") |};
                  __role := role;
                  __filePath := serviceaccount_token_path |}
       end).
Proof.
  unfold constructor, VaultBaseAuth_constructor, bind, ret, lift.
  destruct (get_prop config "role"); reflexivity.
Qed.

Lemma constructor_filePath apiClient logger config mount tr this :
  constructor apiClient logger config mount = (tr, inr this) ->
  __filePath this = serviceaccount_token_path.
Proof.
  rewrite constructor_eq. destruct (get_prop config "role"); intros H;
    inversion H; reflexivity.
Qed.

Section AuthenticateEquations.

Variable getTE : jsval -> jserror + TokenEntity.
Variable fs : FileSystem.
Variable this : VaultKubernetesAuth.

Lemma authenticate_unreadable code :
  readFile fs (__filePath this) = inl code ->
  _authenticate getTE fs this =
  ([info_line this; ReadFile (__filePath this)],
   Thrown (SystemError code (__filePath this))).
Proof.
  intros H. unfold _authenticate, readFileSync, bind, emit, throw.
  rewrite H. reflexivity.
Qed.

Lemma authenticate_readable jwt :
  readFile fs (__filePath this) = inr jwt ->
  _authenticate getTE fs this =
  let '(t, r) :=
    match makeRequest (__apiClient (base this)) "POST"
            (login_path (_mount (base this)))
            (login_body (__role this) jwt) with
    | inl e => ([], inl e)
    | inr res => then_entity getTE res
    end in
  ([info_line this; ReadFile (__filePath this);
    ConsoleLog ("File is contains token " ++ jwt);
    login_request this jwt] ++ t, settle r)%list.
Proof.
  intros H. unfold _authenticate, readFileSync, then_login, bind, emit, ret,
    lift, login_request.
  rewrite H. cbn -[then_entity].
  destruct (makeRequest _ _ _ _) as [e|res]; [reflexivity|].
  destruct (then_entity getTE res) as [t r]. reflexivity.
Qed.

Lemma then_entity_eq res :
  then_entity getTE res =
  match get_prop res "auth" with
  | inl e => ([], inl e)
  | inr auth =>
      match get_prop auth "client_token" with
      | inl e => ([], inl e)
      | inr tok =>
          ([LoggerCall Debug "receive token: %s" [tok]], getTE tok)
      end
  end.
Proof.
  unfold then_entity, bind, lift, emit.
  destruct (get_prop res "auth") as [e|auth]; [reflexivity|].
  destruct (get_prop auth "client_token") as [e|tok]; reflexivity.
Qed.

End AuthenticateEquations.

(** ** Properties of the Kubernetes backend *)

(** Goes through the members of a trace that is known entry by entry. *)
Ltac event_cases H :=
  apply list_elem_of_In in H;
  unfold login_request, info_line in H; cbn in H;
  repeat (destruct H as [H|H]; [try discriminate H|]);
  try contradiction;
  try (inversion H; subst; reflexivity).

Section KubernetesProperties.

Variable getTE : jsval -> jserror + TokenEntity.
Variable fs : FileSystem.

(** C1 (amended): for every execution of authenticate, the injected
    logger receives the info line announcing the authentication request,
    with an undefined argument, whatever the credentials are, and at most
    one more call: once the login response has arrived, the debug line
    [receive token: %s] whose argument is the client token of that
    response. The logger is passed nothing else, in particular not the
    service-account JWT read from the file. *)
Theorem logger_output_cases (this : VaultKubernetesAuth) :
  logger_output (fst (_authenticate getTE fs this)) =
    [LoggerCall Info "making authentication request: role_id=%s"
       [JUndefined]]
  \/ exists jwt res auth tok,
       readFile fs (__filePath this) = inr jwt
       /\ makeRequest (__apiClient (base this)) "POST"
            (login_path (_mount (base this)))
            (login_body (__role this) jwt) = inr res
       /\ get_prop res "auth" = inr auth
       /\ get_prop auth "client_token" = inr tok
       /\ logger_output (fst (_authenticate getTE fs this)) =
          [LoggerCall Info "making authentication request: role_id=%s"
             [JUndefined];
           LoggerCall Debug "receive token: %s" [tok]].
Proof.
  destruct (readFile fs (__filePath this)) as [code|jwt] eqn:Hfile.
  - left. rewrite (authenticate_unreadable _ _ _ _ Hfile). reflexivity.
  - rewrite (authenticate_readable getTE _ _ _ Hfile).
    destruct (makeRequest _ _ _ _) as [e|res] eqn:Hreq; [left; reflexivity|].
    rewrite then_entity_eq.
    destruct (get_prop res "auth") as [e|auth] eqn:Hauth; [left; reflexivity|].
    destruct (get_prop auth "client_token") as [e|tok] eqn:Htok;
      [left; reflexivity|].
    right. exists jwt, res, auth, tok. repeat split; reflexivity || assumption.
Qed.

(** C2 (amended): when the service-account token file is unreadable,
    construction is not affected (it does not touch the file) and
    authenticate throws the exception of the file system itself, with its
    code and the path, after the info line and before any request to the
    store or any further log output; that exception belongs to none of
    the error classes of the specification. *)
Theorem unreadable_file_throws_system_error
    apiClient logger config mount this code :
  constructor apiClient logger config mount = ([], inr this) ->
  readFile fs serviceaccount_token_path = inl code ->
  _authenticate getTE fs this =
    ([LoggerCall Info "making authentication request: role_id=%s"
        [JUndefined];
      ReadFile serviceaccount_token_path],
     Thrown (SystemError code serviceaccount_token_path))
  /\ failure_class (snd (_authenticate getTE fs this)) = Some Unclassified.
Proof.
  intros Hnew Hfile.
  pose proof (constructor_filePath _ _ _ _ _ _ Hnew) as Hpath.
  assert (_authenticate getTE fs this =
          ([info_line this; ReadFile (__filePath this)],
           Thrown (SystemError code (__filePath this)))) as Heq.
  { apply authenticate_unreadable. rewrite Hpath. exact Hfile. }
  rewrite Heq, Hpath. split; reflexivity.
Qed.

(** C4: for every successful authentication of a constructed backend, the
    only file read is the service-account token at the well-known path,
    the only request is POST /auth/<mount>/login with body {role, jwt}
    made of the configured role and the text of that file, and the
    resulting Token Entity is the one built from the client token of the
    response. *)
Theorem authenticate_success_shape
    apiClient logger config mount this tr entity :
  constructor apiClient logger config mount = ([], inr this) ->
  _authenticate getTE fs this = (tr, Resolved entity) ->
  exists role jwt res auth tok,
    get_prop config "role" = inr role
    /\ readFile fs serviceaccount_token_path = inr jwt
    /\ file_reads tr = [ReadFile serviceaccount_token_path]
    /\ requests tr =
         [ApiRequest "POST"
            ("/auth/" ++ to_string (or_else mount (JStr "kubernetes"))
               ++ "/login")
            (JObj (<["role" := role]> (<["jwt" := JStr jwt]> ∅)))]
    /\ makeRequest apiClient "POST"
          ("/auth/" ++ to_string (or_else mount (JStr "kubernetes"))
             ++ "/login")
          (JObj (<["role" := role]> (<["jwt" := JStr jwt]> ∅))) = inr res
    /\ get_prop res "auth" = inr auth
    /\ get_prop auth "client_token" = inr tok
    /\ getTE tok = inr entity.
Proof.
  intros Hnew Hrun.
  rewrite constructor_eq in Hnew.
  destruct (get_prop config "role") as [e|role] eqn:Hrole; [discriminate|].
  injection Hnew as <-.
  match type of Hrun with _authenticate _ _ ?t = _ => set (this := t) in * end.
  destruct (readFile fs serviceaccount_token_path) as [code|jwt] eqn:Hfile.
  - rewrite (authenticate_unreadable getTE fs this code Hfile) in Hrun.
    discriminate.
  - rewrite (authenticate_readable getTE fs this jwt Hfile) in Hrun.
    subst this. cbn [base __apiClient _mount __role] in Hrun.
    unfold login_path, login_body in Hrun.
    destruct (makeRequest apiClient _ _ _) as [e|res] eqn:Hreq;
      [discriminate|].
    rewrite then_entity_eq in Hrun.
    destruct (get_prop res "auth") as [e|auth] eqn:Hauth; [discriminate|].
    destruct (get_prop auth "client_token") as [e|tok] eqn:Htok;
      [discriminate|].
    destruct (getTE tok) as [e|ent] eqn:Hent; [discriminate|].
    injection Hrun as <- <-.
    exists role, jwt, res, auth, tok. repeat split; try assumption.
Qed.

(** C10: the backend ignores config.jwt. Whatever value the configuration
    gives to jwt, the constructed backend is the one obtained from the
    configuration without that field, and every request it makes carries
    as jwt the text read from
    /var/run/secrets/kubernetes.io/serviceaccount/token. *)
Theorem config_jwt_is_ignored
    apiClient logger (config : gmap string jsval) configured mount this :
  constructor apiClient logger (JObj (<["jwt" := configured]> config)) mount
    = ([], inr this) ->
  constructor apiClient logger (JObj (delete "jwt" config)) mount
    = ([], inr this)
  /\ __filePath this = "/var/run/secrets/kubernetes.io/serviceaccount/token"
  /\ forall method path body,
       ApiRequest method path body ∈ fst (_authenticate getTE fs this) ->
       exists jwt,
         readFile fs "/var/run/secrets/kubernetes.io/serviceaccount/token"
           = inr jwt
         /\ body = JObj (<["role" := __role this]> (<["jwt" := JStr jwt]> ∅)).
Proof.
  intros Hnew. rewrite constructor_eq in Hnew. cbn in Hnew.
  rewrite lookup_insert_ne in Hnew by discriminate.
  injection Hnew as <-.
  split; [|split].
  - rewrite constructor_eq. cbn.
    rewrite lookup_delete_ne by discriminate. reflexivity.
  - reflexivity.
  - intros method path body Hin. cbn [__role].
    change "/var/run/secrets/kubernetes.io/serviceaccount/token"
      with serviceaccount_token_path.
    match type of Hin with _ ∈ fst (_authenticate _ _ ?t) =>
      set (this := t) in * end.
    destruct (readFile fs serviceaccount_token_path) as [code|jwt] eqn:Hfile.
    + rewrite (authenticate_unreadable getTE fs this code Hfile) in Hin.
      event_cases Hin.
    + exists jwt. split; [reflexivity|].
      rewrite (authenticate_readable getTE fs this jwt Hfile) in Hin.
      subst this. cbn [base __apiClient _mount __role] in Hin.
      destruct (makeRequest apiClient _ _ _) as [e|res] eqn:Hreq;
        [event_cases Hin|].
      rewrite then_entity_eq in Hin.
      destruct (get_prop res "auth") as [e|auth]; [event_cases Hin|].
      destruct (get_prop auth "client_token") as [e|tok]; event_cases Hin.
Qed.

End KubernetesProperties.

(** C3 (amended): construction of the Kubernetes backend makes no network
    call, and it accepts every configuration object without validating it:
    construction succeeds and stores config.role as the role, undefined
    when the field is missing. *)
Theorem constructor_accepts_any_object
    apiClient logger (config : gmap string jsval) mount :
  constructor apiClient logger (JObj config) mount =
    ([], inr {| base := {| __apiClient := apiClient; _log := logger;
                           _mount := or_else mount (JStr "kubernetes") |};
                __role := default JUndefined (config !! "role");
                __filePath := serviceaccount_token_path |})
  /\ forall anything,
       requests (fst (constructor apiClient logger anything mount)) = [].
Proof.
  split.
  - rewrite constructor_eq. reflexivity.
  - intros anything. rewrite constructor_eq. reflexivity.
Qed.

(** ** The claims that fail on the code, at concrete inputs *)

Section Counterexamples.

Import Fixtures.

(** C1, as stated, fails: in a pod whose token file holds "eyJ.jwt",
    against a store answering with the client token "s.tok", the log
    output of authenticate contains both texts, and it changes when only
    the content of the token file changes. *)
Lemma credentials_reach_the_logs :
  let logs_with jwt :=
    log_output
      (fst (_authenticate entity_of (pod_fs jwt) (k8s (JStr "app")))) in
  logs_with "eyJ.jwt" =
    [LoggerCall Info "making authentication request: role_id=%s"
       [JUndefined];
     ConsoleLog "File is contains token eyJ.jwt";
     LoggerCall Debug "receive token: %s" [JStr "s.tok"]]
  /\ existsb (mentions "eyJ.jwt") (logs_with "eyJ.jwt") = true
  /\ existsb (mentions "s.tok") (logs_with "eyJ.jwt") = true
  /\ logs_with "eyJ.jwt" <> logs_with "eyJ.other".
Proof.
  cbv zeta. repeat split; try reflexivity.
  vm_compute. discriminate.
Qed.

(** C2, as stated, fails: on a machine without the token file the
    construction succeeds, and authenticate ends with the ENOENT
    exception of the file system, thrown to the caller, which is neither
    an AuthError nor a ConfigurationError. *)
Lemma unreadable_file_is_unclassified :
  constructor (store "s.tok") logger (JObj {[ "role" := JStr "app" ]})
    JUndefined = ([], inr (k8s (JStr "app")))
  /\ snd (_authenticate entity_of bare_fs (k8s (JStr "app"))) =
       Thrown (SystemError "ENOENT" serviceaccount_token_path)
  /\ failure_class (snd (_authenticate entity_of bare_fs (k8s (JStr "app"))))
       <> Some AuthError.
Proof.
  repeat split; try reflexivity.
  vm_compute. discriminate.
Qed.

(** C3, as stated, fails: a configuration with no role is accepted, no
    ConfigurationError is raised, and the following authenticate sends
    the login request with an undefined role. *)
Lemma missing_role_is_accepted :
  constructor (store "s.tok") logger (JObj ∅) JUndefined =
    ([], inr (k8s JUndefined))
  /\ requests
       (fst (_authenticate entity_of (pod_fs "eyJ.jwt") (k8s JUndefined))) =
     [ApiRequest "POST" "/auth/kubernetes/login"
        (JObj (<["role" := JUndefined]> (<["jwt" := JStr "eyJ.jwt"]> ∅)))].
Proof.
  split; reflexivity.
Qed.

End Counterexamples.

(** ** The theorems with hypotheses, at concrete inputs *)

Section Witnesses.

Import Fixtures.

Lemma unreadable_file_throws_system_error_witness :
  _authenticate entity_of bare_fs (k8s (JStr "app")) =
    ([LoggerCall Info "making authentication request: role_id=%s"
        [JUndefined];
      ReadFile serviceaccount_token_path],
     Thrown (SystemError "ENOENT" serviceaccount_token_path))
  /\ failure_class (snd (_authenticate entity_of bare_fs (k8s (JStr "app"))))
     = Some Unclassified.
Proof.
  apply (unreadable_file_throws_system_error entity_of bare_fs
           (store "s.tok") logger (JObj {[ "role" := JStr "app" ]})
           JUndefined (k8s (JStr "app")) "ENOENT");
    reflexivity.
Defined.

Lemma authenticate_success_shape_witness :
  exists role jwt res auth tok,
    get_prop (JObj {[ "role" := JStr "app" ]}) "role" = inr role
    /\ readFile (pod_fs "eyJ.jwt") serviceaccount_token_path = inr jwt
    /\ file_reads
         (fst (_authenticate entity_of (pod_fs "eyJ.jwt") (k8s (JStr "app"))))
       = [ReadFile serviceaccount_token_path]
    /\ requests
         (fst (_authenticate entity_of (pod_fs "eyJ.jwt") (k8s (JStr "app"))))
       = [ApiRequest "POST"
            ("/auth/" ++ to_string (or_else JUndefined (JStr "kubernetes"))
               ++ "/login")
            (JObj (<["role" := role]> (<["jwt" := JStr jwt]> ∅)))]
    /\ makeRequest (store "s.tok") "POST"
          ("/auth/" ++ to_string (or_else JUndefined (JStr "kubernetes"))
             ++ "/login")
          (JObj (<["role" := role]> (<["jwt" := JStr jwt]> ∅))) = inr res
    /\ get_prop res "auth" = inr auth
    /\ get_prop auth "client_token" = inr tok
    /\ entity_of tok =
       inr {| credential := "s.tok"; issuedAt := 0; leaseDuration := 60;
              renewable := true; period := None |}.
Proof.
  apply (authenticate_success_shape entity_of (pod_fs "eyJ.jwt")
           (store "s.tok") logger (JObj {[ "role" := JStr "app" ]})
           JUndefined (k8s (JStr "app"))
           (fst (_authenticate entity_of (pod_fs "eyJ.jwt")
                   (k8s (JStr "app")))));
    reflexivity.
Defined.

Lemma config_jwt_is_ignored_witness :
  constructor (store "s.tok") logger
    (JObj (delete "jwt" {[ "role" := JStr "app" ]})) JUndefined
    = ([], inr (k8s (JStr "app")))
  /\ __filePath (k8s (JStr "app"))
     = "/var/run/secrets/kubernetes.io/serviceaccount/token"
  /\ forall method path body,
       ApiRequest method path body
         ∈ fst (_authenticate entity_of (pod_fs "from-the-file")
                  (k8s (JStr "app"))) ->
       exists jwt,
         readFile (pod_fs "from-the-file")
           "/var/run/secrets/kubernetes.io/serviceaccount/token" = inr jwt
         /\ body = JObj (<["role" := __role (k8s (JStr "app"))]>
                           (<["jwt" := JStr jwt]> ∅)).
Proof.
  apply (config_jwt_is_ignored entity_of (pod_fs "from-the-file")
           (store "s.tok") logger {[ "role" := JStr "app" ]}
           (JStr "configured") JUndefined (k8s (JStr "app"))).
  reflexivity.
Defined.

End Witnesses.

(** ** Round trip through the Client Facade *)

Lemma transport_accepted token rq st st' v :
  Facade.transport token rq st = (st', inr v) ->
  token ∈ Facade.accepted st /\ Facade.accepted st' = Facade.accepted st.
Proof.
  unfold Facade.transport. destruct (decide _) as [Hin|Hout]; [|discriminate].
  destruct rq; intros H; inversion H; subst; auto.
Qed.

Lemma transport_write token path data st st' v :
  Facade.transport token (Facade.WriteSecret path data) st = (st', inr v) ->
  Facade.secrets st' !! path = Some data.
Proof.
  unfold Facade.transport. destruct (decide _); [|discriminate].
  intros H; inversion H; subst. cbn. apply lookup_insert_eq.
Qed.

Lemma getToken_cached c t st :
  Facade.currentToken c = Some t -> Facade.getToken c st = (c, inr t).
Proof. unfold Facade.getToken. intros ->. reflexivity. Qed.

Lemma getToken_caches c st c' t :
  Facade.getToken c st = (c', inr t) -> Facade.currentToken c' = Some t.
Proof.
  unfold Facade.getToken.
  destruct (Facade.currentToken c) eqn:Hc.
  - intros H; inversion H; subst; assumption.
  - destruct (Facade.authenticate c st); intros H; inversion H; reflexivity.
Qed.

(** After a request that succeeded, the client caches a token that the
    store accepts. *)
Lemma perform_ok_token c st rq c' st' v :
  Facade.perform c st rq = (c', st', inr v) ->
  exists t, Facade.currentToken c' = Some t
            /\ credential t ∈ Facade.accepted st'.
Proof.
  unfold Facade.perform.
  destruct (Facade.getToken c st) as [c1 [e|t]] eqn:Hget; [discriminate|].
  destruct (Facade.transport (credential t) rq st) as [st1 [e|v1]] eqn:Htr.
  - destruct (Facade.is_authorization_failure e); [|discriminate].
    destruct (Facade.getToken (Facade.with_token c1 None) st1)
      as [c2 [e'|t']] eqn:Hget2; [discriminate|].
    destruct (Facade.transport (credential t') rq st1) as [st2 r] eqn:Htr2.
    intros H; inversion H; subst.
    exists t'. split; [eapply getToken_caches; eassumption|].
    apply transport_accepted in Htr2 as [Hin Heq]. rewrite Heq. exact Hin.
  - intros H; inversion H; subst.
    exists t. split; [eapply getToken_caches; eassumption|].
    apply transport_accepted in Htr as [Hin Heq]. rewrite Heq. exact Hin.
Qed.

Lemma perform_write_stored c st path data c' st' v :
  Facade.perform c st (Facade.WriteSecret path data) = (c', st', inr v) ->
  Facade.secrets st' !! path = Some data.
Proof.
  unfold Facade.perform.
  destruct (Facade.getToken c st) as [c1 [e|t]] eqn:Hget; [discriminate|].
  destruct (Facade.transport (credential t) _ st) as [st1 [e|v1]] eqn:Htr.
  - destruct (Facade.is_authorization_failure e); [|discriminate].
    destruct (Facade.getToken (Facade.with_token c1 None) st1)
      as [c2 [e'|t']] eqn:Hget2; [discriminate|].
    destruct (Facade.transport (credential t') _ st1) as [st2 r] eqn:Htr2.
    intros H; inversion H; subst.
    eapply transport_write; eassumption.
  - intros H; inversion H; subst. eapply transport_write; eassumption.
Qed.

(** C5: writing secret data to a path and then reading the same path
    returns the data that was written, equal as a value (objects are finite
    maps, so equality is deep equality). This holds whatever token the
    client had cached before the write, as long as the write succeeded. *)
Theorem write_then_read c st path data c' st' :
  Facade.write c st path data = (c', st', inr tt) ->
  Facade.read c' st' path = (c', st', inr data).
Proof.
  unfold Facade.write, Facade.read.
  destruct (Facade.perform c st _) as [[c1 st1] [e|v]] eqn:Hw; [discriminate|].
  intros H; inversion H; subst.
  destruct (perform_ok_token _ _ _ _ _ _ Hw) as (t & Hc & Hin).
  pose proof (perform_write_stored _ _ _ _ _ _ _ Hw) as Hsec.
  unfold Facade.perform. rewrite (getToken_cached _ _ _ Hc).
  unfold Facade.transport. rewrite decide_True by assumption.
  rewrite Hsec. reflexivity.
Qed.

Lemma write_then_read_witness :
  let written := JObj {[ "a" := JNum 1 ]} in
  let client := Facade.with_token Fixtures.token_client
                  (Some {| credential := "T1"; issuedAt := 0;
                           leaseDuration := 0; renewable := false;
                           period := None |}) in
  let store := {| Facade.secrets := {[ "secret/x" := written ]};
                  Facade.accepted := {[ "T1" ]} |} in
  Facade.write Fixtures.token_client Fixtures.empty_store "secret/x" written
    = (client, store, inr tt)
  /\ Facade.read client store "secret/x" = (client, store, inr written).
Proof.
  cbv zeta.
  assert (Facade.write Fixtures.token_client Fixtures.empty_store "secret/x"
            (JObj {[ "a" := JNum 1 ]})
          = (Facade.with_token Fixtures.token_client
               (Some {| credential := "T1"; issuedAt := 0;
                        leaseDuration := 0; renewable := false;
                        period := None |}),
             {| Facade.secrets := {[ "secret/x" := JObj {[ "a" := JNum 1 ]} ]};
                Facade.accepted := {[ "T1" ]} |}, inr tt)) as Hwrite
    by (vm_compute; reflexivity).
  split; [exact Hwrite|].
  exact (write_then_read _ _ _ _ _ _ Hwrite).
Defined.

(** ** Configuration injection *)

Lemma set_leaf_no_match p v c :
  leaf_at p c = None -> set_leaf p v c = c.
Proof.
  revert c. induction p as [|k p IH]; intros c Hp.
  - unfold leaf_at in Hp. cbn in *.
    destruct (is_leaf c); [discriminate|reflexivity].
  - unfold leaf_at in *. cbn in *. destruct c as [| | | | |m]; try reflexivity.
    destruct (m !! k) as [c'|] eqn:Hk; [|reflexivity].
    rewrite (IH _ Hp). rewrite insert_id by exact Hk. reflexivity.
Qed.

Lemma leaf_at_set_leaf_other p q v c x :
  q ≠ p -> leaf_at q c = Some x -> leaf_at q (set_leaf p v c) = Some x.
Proof.
  revert q c. induction p as [|k p IH]; intros q c Hne Hq.
  - destruct q as [|kq q]; [congruence|].
    cbn. destruct (is_leaf c) eqn:Hc; [|exact Hq].
    unfold leaf_at in Hq. cbn in Hq. destruct c; try discriminate.
  - cbn. destruct c as [| | | | |m]; try exact Hq.
    destruct (m !! k) as [c'|] eqn:Hk; [|exact Hq].
    destruct q as [|kq q].
    + unfold leaf_at in Hq. cbn in Hq. discriminate.
    + unfold leaf_at in *. cbn in *.
      destruct (decide (k = kq)) as [->|Hk'].
      * rewrite lookup_insert_eq. rewrite Hk in Hq.
        apply IH; [congruence|exact Hq].
      * rewrite lookup_insert_ne by assumption. exact Hq.
Qed.

Lemma leaf_at_set_leaf_same p v c x :
  leaf_at p c = Some x -> get_at p (set_leaf p v c) = Some v.
Proof.
  revert c. induction p as [|k p IH]; intros c Hp.
  - unfold leaf_at in Hp. cbn in *. destruct (is_leaf c); [reflexivity|discriminate].
  - unfold leaf_at in *. cbn in *. destruct c as [| | | | |m]; try discriminate.
    destruct (m !! k) as [c'|] eqn:Hk; [|discriminate].
    cbn. rewrite lookup_insert_eq. apply IH. exact Hp.
Qed.

Lemma inject_frame secrets mapping c q x :
  leaf_at q c = Some x ->
  q ∉ map target mapping ->
  leaf_at q (inject secrets mapping c) = Some x.
Proof.
  unfold inject. revert c. induction mapping as [|e mapping IH]; intros c Hq Hnot.
  - exact Hq.
  - cbn in *. apply not_elem_of_cons in Hnot as [Hne Hnot].
    apply IH; [|exact Hnot].
    unfold inject_entry. destruct (resolve secrets e); [|exact Hq].
    apply leaf_at_set_leaf_other; assumption.
Qed.

Lemma inject_no_match secrets mapping c :
  Forall (fun e => resolve secrets e = None \/ leaf_at (target e) c = None)
    mapping ->
  inject secrets mapping c = c.
Proof.
  unfold inject. induction 1 as [|e mapping He _ IH]; [reflexivity|].
  cbn. replace (inject_entry secrets c e) with c; [exact IH|].
  unfold inject_entry. destruct (resolve secrets e) as [v|]; [|reflexivity].
  destruct He as [He|He]; [discriminate|].
  symmetry. apply set_leaf_no_match, He.
Qed.

Lemma inject_overwrites secrets mapping c e v old :
  NoDup (map target mapping) ->
  e ∈ mapping ->
  resolve secrets e = Some v ->
  is_leaf v = true ->
  leaf_at (target e) c = Some old ->
  leaf_at (target e) (inject secrets mapping c) = Some v.
Proof.
  unfold inject. revert c old.
  induction mapping as [|e0 mapping IH]; intros c old Hnd Hin Hres Hv Hold.
  - inversion Hin.
  - cbn in *. apply NoDup_cons in Hnd as [Hfresh Hnd].
    apply elem_of_cons in Hin as [->|Hin].
    + fold (inject secrets mapping (inject_entry secrets c e0)).
      apply inject_frame; [|exact Hfresh].
      unfold inject_entry. rewrite Hres. unfold leaf_at.
      rewrite (leaf_at_set_leaf_same _ _ _ _ Hold). rewrite Hv. reflexivity.
    + assert (target e ≠ target e0) as Hne.
      { intros Heq. apply Hfresh. rewrite <- Heq.
        apply list_elem_of_fmap. exists e. split; [reflexivity|exact Hin]. }
      apply (IH _ old); try assumption.
      unfold inject_entry. destruct (resolve secrets e0); [|exact Hold].
      apply leaf_at_set_leaf_other; assumption.
Qed.

(** C6: injecting with a mapping none of whose entries matches (it is
    empty, its secrets cannot be resolved, or its targets are not leaves of
    the configuration) leaves the whole configuration unchanged; injecting
    with any mapping leaves every leaf that is not a target unchanged; and
    with a mapping of distinct targets every target that is a leaf and
    whose secret resolves to a plain value is overwritten with that value. *)
Theorem inject_touches_exactly_the_mapped_leaves
    (secrets : gmap string jsval) (mapping : list entry) (c : jsval) :
  (Forall (fun e => resolve secrets e = None \/ leaf_at (target e) c = None)
     mapping ->
   inject secrets mapping c = c)
  /\ (forall q x,
        leaf_at q c = Some x ->
        q ∉ map target mapping ->
        leaf_at q (inject secrets mapping c) = Some x)
  /\ (NoDup (map target mapping) ->
      forall e v old,
        e ∈ mapping ->
        resolve secrets e = Some v ->
        is_leaf v = true ->
        leaf_at (target e) c = Some old ->
        leaf_at (target e) (inject secrets mapping c) = Some v).
Proof.
  split; [|split].
  - apply inject_no_match.
  - intros q x Hq Hnot. apply inject_frame; assumption.
  - intros Hnd e v old Hin Hres Hv Hold.
    eapply inject_overwrites; eassumption.
Qed.

Lemma inject_touches_exactly_the_mapped_leaves_witness :
  inject ∅ Fixtures.full_mapping Fixtures.base_config = Fixtures.base_config
  /\ leaf_at ["b"]
       (inject Fixtures.test_secrets (take 2 Fixtures.full_mapping)
          Fixtures.base_config) = Some (JStr "NOT WORKING")
  /\ leaf_at ["deep"; "aInt"]
       (inject Fixtures.test_secrets Fixtures.full_mapping
          Fixtures.base_config) = Some (JNum 12345).
Proof.
  split; [|split].
  - apply (inject_touches_exactly_the_mapped_leaves ∅ Fixtures.full_mapping
             Fixtures.base_config).
    repeat constructor; left; reflexivity.
  - apply (inject_touches_exactly_the_mapped_leaves Fixtures.test_secrets
             (take 2 Fixtures.full_mapping) Fixtures.base_config).
    + vm_compute. reflexivity.
    + apply (bool_decide_unpack _). vm_compute. exact I.
  - apply (inject_touches_exactly_the_mapped_leaves Fixtures.test_secrets
             Fixtures.full_mapping Fixtures.base_config)
      with (e := {| target := ["deep"; "aInt"]; secret_path := "secret/a";
                    field := "tstInt" |}) (old := JNum 0).
    + apply (bool_decide_unpack _). vm_compute. exact I.
    + apply list_elem_of_In. cbn. auto.
    + vm_compute. reflexivity.
    + reflexivity.
    + vm_compute. reflexivity.
Defined.

(** ** Single flight in the Token Lifecycle Manager *)

Lemma accounted_initial : accounted initial.
Proof. reflexivity. Qed.

Lemma accounted_step m i : accounted m -> accounted (step m i).
Proof.
  unfold accounted, calling, step, start, conclude, enqueue.
  destruct i as [c|[e|t'] left|]; destruct (state m) as [| |t|t [|]] eqn:Hst;
    cbn; rewrite ?Hst; intros H; try lia.
  all: try (destruct left; cbn; rewrite ?Hst; lia).
  destruct (renewable t && (0 <? leaseDuration t)%Z); cbn; rewrite ?Hst; lia.
Qed.

Lemma accounted_run inputs m : accounted m -> accounted (run m inputs).
Proof.
  unfold run. revert m. induction inputs as [|i inputs IH]; intros m H.
  - exact H.
  - cbn. apply IH, accounted_step, H.
Qed.

Create HintDb lifecycle.
#[local] Hint Resolve accounted_initial accounted_step accounted_run : lifecycle.







(** * Further properties of the Kubernetes backend *)

(** ** Strings *)

Lemma string_prefix_refl (s : string) : String.prefix s s = true.
Proof.
  induction s as [|c s IH]; [reflexivity|].
  cbn. destruct (Ascii.ascii_dec c c) as [_|Hne]; [exact IH|congruence].
Qed.

Lemma contains_refl (s : string) : contains s s = true.
Proof.
  destruct s as [|c s]; [reflexivity|].
  cbn [contains]. rewrite string_prefix_refl. reflexivity.
Qed.

Lemma contains_app_r (p s : string) : contains s (p ++ s) = true.
Proof.
  induction p as [|c p IH].
  - apply contains_refl.
  - change (String c p ++ s) with (String c (p ++ s)).
    cbn [contains]. rewrite IH. apply orb_true_r.
Qed.

(** ** The trace of [_authenticate], case by case *)

Section AuthenticateTraces.

Variable getTE : jsval -> jserror + TokenEntity.
Variable fs : FileSystem.
Variable this : VaultKubernetesAuth.


Lemma authenticate_file_reads :
  file_reads (fst (_authenticate getTE fs this)) =
  [ReadFile (__filePath this)].
Proof.
  destruct (readFile fs (__filePath this)) as [code|jwt] eqn:Hfile.
  - rewrite (authenticate_unreadable getTE fs this code Hfile). reflexivity.
  - rewrite (authenticate_readable getTE fs this jwt Hfile).
    destruct (makeRequest _ _ _ _) as [e|res]; [reflexivity|].
    rewrite then_entity_eq.
    destruct (get_prop res "auth") as [e|auth]; [reflexivity|].
    destruct (get_prop auth "client_token") as [e|tok]; reflexivity.
Qed.

(** What the promise chain does once the response [res] is there. *)
Lemma authenticate_with_response jwt res :
  readFile fs (__filePath this) = inr jwt ->
  makeRequest (__apiClient (base this)) "POST"
    (login_path (_mount (base this))) (login_body (__role this) jwt)
    = inr res ->
  _authenticate getTE fs this =
  ([info_line this; ReadFile (__filePath this);
    ConsoleLog ("File is contains token " ++ jwt);
    login_request this jwt] ++ fst (then_entity getTE res),
   settle (snd (then_entity getTE res)))%list.
Proof.
  intros Hfile Hreq.
  rewrite (authenticate_readable getTE fs this jwt Hfile), Hreq.
  destruct (then_entity getTE res). reflexivity.
Qed.

End AuthenticateTraces.


(** ** Edge and error behaviour *)

Section KubernetesEdges.

Variable getTE : jsval -> jserror + TokenEntity.
Variable fs : FileSystem.


(** X3: authenticate throws to its caller, instead of returning a promise,
    exactly when the token file cannot be read; the exception is then the
    one of the file system. *)
Theorem throws_iff_unreadable (this : VaultKubernetesAuth) (e : jserror) :
  snd (_authenticate getTE fs this) = Thrown e
  <-> exists code,
        readFile fs (__filePath this) = inl code
        /\ e = SystemError code (__filePath this).
Proof.
  split.
  - intros Hthrown.
    destruct (readFile fs (__filePath this)) as [code|jwt] eqn:Hfile.
    + rewrite (authenticate_unreadable getTE fs this code Hfile) in Hthrown.
      injection Hthrown as <-. exists code. split; reflexivity.
    + rewrite (authenticate_readable getTE fs this jwt Hfile) in Hthrown.
      destruct (makeRequest _ _ _ _) as [e'|res]; [discriminate|].
      destruct (then_entity getTE res) as [t [e'|ent]]; discriminate.
  - intros (code & Hfile & ->).
    rewrite (authenticate_unreadable getTE fs this code Hfile). reflexivity.
Qed.

(** X4: when the request transport fails, the promise is rejected with the
    transport's own error, unchanged; the request is made once, the debug
    line is not written and the entity builder is not consulted. *)
Theorem transport_failure_is_passed_on (this : VaultKubernetesAuth) jwt e :
  readFile fs (__filePath this) = inr jwt ->
  makeRequest (__apiClient (base this)) "POST"
    (login_path (_mount (base this))) (login_body (__role this) jwt)
    = inl e ->
  _authenticate getTE fs this =
  ([LoggerCall Info "making authentication request: role_id=%s" [JUndefined];
    ReadFile (__filePath this);
    ConsoleLog ("File is contains token " ++ jwt);
    ApiRequest "POST" (login_path (_mount (base this)))
      (login_body (__role this) jwt)],
   Rejected e).
Proof.
  intros Hfile Hreq.
  rewrite (authenticate_readable getTE fs this jwt Hfile), Hreq. reflexivity.
Qed.

(** X5: a response object without an auth member rejects the promise with
    the TypeError of reading client_token of undefined; nothing is logged
    at debug level and no entity is built. *)
Theorem response_without_auth_rejects
    (this : VaultKubernetesAuth) jwt (res : gmap string jsval) :
  readFile fs (__filePath this) = inr jwt ->
  makeRequest (__apiClient (base this)) "POST"
    (login_path (_mount (base this))) (login_body (__role this) jwt)
    = inr (JObj res) ->
  res !! "auth" = None ->
  snd (_authenticate getTE fs this)
    = Rejected (TypeError "client_token" JUndefined)
  /\ logger_output (fst (_authenticate getTE fs this)) =
     [LoggerCall Info "making authentication request: role_id=%s"
        [JUndefined]].
Proof.
  intros Hfile Hreq Hauth.
  rewrite (authenticate_with_response getTE fs this jwt _ Hfile Hreq).
  rewrite then_entity_eq. cbn [get_prop]. rewrite Hauth. cbn.
  split; reflexivity.
Qed.

(** X6: the client token is not validated: when the auth member of the
    response has no client_token, the debug line is written with undefined
    and the entity builder is called with undefined; its answer settles
    the promise. *)
Theorem missing_client_token_is_not_checked
    (this : VaultKubernetesAuth) jwt (res auth : gmap string jsval) :
  readFile fs (__filePath this) = inr jwt ->
  makeRequest (__apiClient (base this)) "POST"
    (login_path (_mount (base this))) (login_body (__role this) jwt)
    = inr (JObj res) ->
  res !! "auth" = Some (JObj auth) ->
  auth !! "client_token" = None ->
  snd (_authenticate getTE fs this) = settle (getTE JUndefined)
  /\ logger_output (fst (_authenticate getTE fs this)) =
     [LoggerCall Info "making authentication request: role_id=%s"
        [JUndefined];
      LoggerCall Debug "receive token: %s" [JUndefined]].
Proof.
  intros Hfile Hreq Hauth Htok.
  rewrite (authenticate_with_response getTE fs this jwt _ Hfile Hreq).
  rewrite then_entity_eq.
  assert (get_prop (JObj res) "auth" = inr (JObj auth)) as ->
    by (cbn; rewrite Hauth; reflexivity).
  assert (get_prop (JObj auth) "client_token" = inr JUndefined) as ->
    by (cbn; rewrite Htok; reflexivity).
  destruct (getTE JUndefined); split; reflexivity.
Qed.

(** X10: whenever the token file can be read, its content is written to
    standard output and so occurs in the log output, whatever the store
    answers afterwards. *)
Theorem jwt_reaches_the_log_output (this : VaultKubernetesAuth) jwt :
  readFile fs (__filePath this) = inr jwt ->
  ConsoleLog ("File is contains token " ++ jwt)
    ∈ log_output (fst (_authenticate getTE fs this))
  /\ existsb (mentions jwt) (log_output (fst (_authenticate getTE fs this)))
     = true.
Proof.
  intros Hfile.
  assert (ConsoleLog ("File is contains token " ++ jwt)
            ∈ log_output (fst (_authenticate getTE fs this))) as Hin.
  { unfold log_output. apply list_elem_of_filter. split; [exact I|].
    rewrite (authenticate_readable getTE fs this jwt Hfile).
    destruct (makeRequest _ _ _ _) as [e|res];
      [|destruct (then_entity getTE res)];
      cbn [fst]; apply list_elem_of_In; cbn; auto. }
  split; [exact Hin|].
  apply existsb_exists. exists (ConsoleLog ("File is contains token " ++ jwt)).
  split; [apply list_elem_of_In, Hin|].
  cbn [mentions]. apply contains_app_r.
Qed.

End KubernetesEdges.

(** X2: construction fails exactly when the configuration is undefined or
    null, with the TypeError of reading role on it; every other
    configuration, objects and primitives alike, is accepted. Either way
    construction has no effect on the outside. *)
Theorem constructor_fails_only_without_config
    apiClient logger config mount (e : jserror) :
  (snd (constructor apiClient logger config mount) = inl e
   <-> (config = JUndefined \/ config = JNull) /\ e = TypeError "role" config)
  /\ fst (constructor apiClient logger config mount) = [].
Proof.
  rewrite constructor_eq. cbn [fst snd]. split; [|reflexivity].
  split.
  - destruct config; cbn; intros H; try discriminate;
      injection H as <-; auto.
  - intros [[-> | ->] ->]; reflexivity.
Qed.

(** ** The builder's effects in the trace *)

Section KubernetesTraced.

Variable builder : jsval -> Eff TokenEntity.
Variable fs : FileSystem.
Variable this : VaultKubernetesAuth.

Lemma then_entity_traced_eq res :
  then_entity_traced builder res =
  match get_prop res "auth" with
  | inl e => ([], inl e)
  | inr auth =>
      match get_prop auth "client_token" with
      | inl e => ([], inl e)
      | inr tok =>
          (LoggerCall Debug "receive token: %s" [tok] :: fst (builder tok),
           snd (builder tok))
      end
  end.
Proof.
  unfold then_entity_traced, bind, lift, emit.
  destruct (get_prop res "auth") as [e|auth]; [reflexivity|].
  destruct (get_prop auth "client_token") as [e|tok]; [reflexivity|].
  destruct (builder tok) as [t r]. reflexivity.
Qed.

Lemma authenticate_traced_unreadable code :
  readFile fs (__filePath this) = inl code ->
  _authenticate_traced builder fs this =
  ([info_line this; ReadFile (__filePath this)],
   Thrown (SystemError code (__filePath this))).
Proof.
  intros H. unfold _authenticate_traced, readFileSync, bind, emit, throw.
  rewrite H. reflexivity.
Qed.

Lemma authenticate_traced_readable jwt :
  readFile fs (__filePath this) = inr jwt ->
  _authenticate_traced builder fs this =
  let '(t, r) :=
    match makeRequest (__apiClient (base this)) "POST"
            (login_path (_mount (base this)))
            (login_body (__role this) jwt) with
    | inl e => ([], inl e)
    | inr res => then_entity_traced builder res
    end in
  ([info_line this; ReadFile (__filePath this);
    ConsoleLog ("File is contains token " ++ jwt);
    login_request this jwt] ++ t, settle r)%list.
Proof.
  intros H. unfold _authenticate_traced, readFileSync, then_login, bind, emit,
    ret, lift, login_request.
  rewrite H. cbn -[then_entity_traced].
  destruct (makeRequest _ _ _ _) as [e|res]; [reflexivity|].
  destruct (then_entity_traced builder res) as [t r]. reflexivity.
Qed.

(** X7: when the token file is readable and the login response has an
    auth.client_token that can be read, authenticate performs five effects
    of its own, in this order: the info line, the file read, the console
    line, the login request and the debug line; then come the effects of
    the inherited entity builder on that token, and the promise settles as
    the builder answers: fulfilled with its entity, or rejected with its
    error. *)
Theorem authenticate_runs_the_builder jwt res auth tok :
  readFile fs (__filePath this) = inr jwt ->
  makeRequest (__apiClient (base this)) "POST"
    (login_path (_mount (base this))) (login_body (__role this) jwt)
    = inr res ->
  get_prop res "auth" = inr auth ->
  get_prop auth "client_token" = inr tok ->
  _authenticate_traced builder fs this =
  ([LoggerCall Info "making authentication request: role_id=%s" [JUndefined];
    ReadFile (__filePath this);
    ConsoleLog ("File is contains token " ++ jwt);
    ApiRequest "POST" (login_path (_mount (base this)))
      (login_body (__role this) jwt);
    LoggerCall Debug "receive token: %s" [tok]] ++ fst (builder tok),
   settle (snd (builder tok)))%list.
Proof.
  intros Hfile Hreq Hauth Htok.
  rewrite (authenticate_traced_readable jwt Hfile), Hreq.
  rewrite then_entity_traced_eq, Hauth, Htok. reflexivity.
Qed.

(** X8: the statements of authenticate itself read the token file once
    and send the login request once, when the file is readable, and never
    otherwise; there is no retry. Every other request or file read of an
    execution is made by the inherited entity builder, which runs at most
    once, on the client token of the login response. *)
Theorem one_login_request_of_its_own :
  exists builder_effects,
    requests (fst (_authenticate_traced builder fs this)) =
      (match readFile fs (__filePath this) with
       | inl _ => []
       | inr jwt => [login_request this jwt]
       end ++ requests builder_effects)%list
    /\ file_reads (fst (_authenticate_traced builder fs this)) =
       ReadFile (__filePath this) :: file_reads builder_effects
    /\ (builder_effects = []
        \/ exists jwt res auth tok,
             readFile fs (__filePath this) = inr jwt
             /\ makeRequest (__apiClient (base this)) "POST"
                  (login_path (_mount (base this)))
                  (login_body (__role this) jwt) = inr res
             /\ get_prop res "auth" = inr auth
             /\ get_prop auth "client_token" = inr tok
             /\ builder_effects = fst (builder tok)).
Proof.
  destruct (readFile fs (__filePath this)) as [code|jwt] eqn:Hfile.
  { exists []. rewrite (authenticate_traced_unreadable code Hfile).
    repeat split; auto. }
  rewrite (authenticate_traced_readable jwt Hfile).
  destruct (makeRequest _ _ _ _) as [e|res] eqn:Hreq.
  { exists []. repeat split; auto. }
  rewrite then_entity_traced_eq.
  destruct (get_prop res "auth") as [e|auth] eqn:Hauth.
  { exists []. repeat split; auto. }
  destruct (get_prop auth "client_token") as [e|tok] eqn:Htok.
  { exists []. repeat split; auto. }
  exists (fst (builder tok)). split; [reflexivity|]. split; [reflexivity|].
  right. exists jwt, res, auth, tok. repeat split; assumption.
Qed.

(** X9: the promise is rejected with an error exactly when, in this
    execution, that error is the one the request transport failed with on
    the login request, or the TypeError of reading auth on its response or
    client_token on its auth member, or the one the entity builder failed
    with on its client token. Errors are neither wrapped nor replaced. *)
Theorem rejected_iff_a_collaborator_failed (e : jserror) :
  snd (_authenticate_traced builder fs this) = Rejected e
  <-> exists jwt,
        readFile fs (__filePath this) = inr jwt
        /\ (makeRequest (__apiClient (base this)) "POST"
              (login_path (_mount (base this)))
              (login_body (__role this) jwt) = inl e
            \/ exists res,
                 makeRequest (__apiClient (base this)) "POST"
                   (login_path (_mount (base this)))
                   (login_body (__role this) jwt) = inr res
                 /\ (get_prop res "auth" = inl e
                     \/ exists auth,
                          get_prop res "auth" = inr auth
                          /\ (get_prop auth "client_token" = inl e
                              \/ exists tok,
                                   get_prop auth "client_token" = inr tok
                                   /\ snd (builder tok) = inl e))).
Proof.
  destruct (readFile fs (__filePath this)) as [code|jwt] eqn:Hfile.
  { rewrite (authenticate_traced_unreadable code Hfile). split.
    - discriminate.
    - intros (jwt & Hjwt & _). discriminate. }
  rewrite (authenticate_traced_readable jwt Hfile).
  split.
  - intros Hrej. exists jwt. split; [reflexivity|].
    destruct (makeRequest _ _ _ _) as [e'|res] eqn:Hreq.
    { left. cbn in Hrej. congruence. }
    right. exists res. split; [reflexivity|].
    rewrite then_entity_traced_eq in Hrej.
    destruct (get_prop res "auth") as [e'|auth] eqn:Hauth.
    { left. cbn in Hrej. congruence. }
    right. exists auth. split; [reflexivity|].
    destruct (get_prop auth "client_token") as [e'|tok] eqn:Htok.
    { left. cbn in Hrej. congruence. }
    right. exists tok. split; [reflexivity|].
    cbn in Hrej. destruct (snd (builder tok)); cbn in Hrej; congruence.
  - intros (jwt' & Hjwt & Hcause). injection Hjwt as <-.
    destruct Hcause as [Hreq | (res & Hreq & Hcause)].
    { rewrite Hreq. reflexivity. }
    rewrite Hreq, then_entity_traced_eq.
    destruct Hcause as [Hauth | (auth & Hauth & Hcause)].
    { rewrite Hauth. reflexivity. }
    rewrite Hauth.
    destruct Hcause as [Htok | (tok & Htok & Hb)].
    { rewrite Htok. reflexivity. }
    rewrite Htok. cbn. rewrite Hb. reflexivity.
Qed.

End KubernetesTraced.

(** The builder that only answers is the builder without effects. *)
Lemma authenticate_traced_pure getTE fs this :
  _authenticate_traced (fun tok => lift (getTE tok)) fs this
  = _authenticate getTE fs this.
Proof. reflexivity. Qed.


(** ** The edge cases at concrete inputs *)

Section EdgeWitnesses.

Import Fixtures EdgeFixtures.


Lemma transport_failure_is_passed_on_witness :
  let this := k8s_on down_store JUndefined (JStr "app") in
  _authenticate entity_of (pod_fs "eyJ.jwt") this =
  ([LoggerCall Info "making authentication request: role_id=%s" [JUndefined];
    ReadFile serviceaccount_token_path;
    ConsoleLog "File is contains token eyJ.jwt";
    ApiRequest "POST" "/auth/kubernetes/login"
      (login_body (JStr "app") "eyJ.jwt")],
   Rejected (Raised TransportError "ECONNREFUSED")).
Proof.
  exact (transport_failure_is_passed_on entity_of (pod_fs "eyJ.jwt")
           (k8s_on down_store JUndefined (JStr "app")) "eyJ.jwt"
           (Raised TransportError "ECONNREFUSED") eq_refl eq_refl).
Defined.

Lemma response_without_auth_rejects_witness :
  let this := k8s_on (store_answering (JObj ∅)) JUndefined (JStr "app") in
  snd (_authenticate entity_of (pod_fs "eyJ.jwt") this)
    = Rejected (TypeError "client_token" JUndefined)
  /\ logger_output (fst (_authenticate entity_of (pod_fs "eyJ.jwt") this)) =
     [LoggerCall Info "making authentication request: role_id=%s"
        [JUndefined]].
Proof.
  exact (response_without_auth_rejects entity_of (pod_fs "eyJ.jwt")
           (k8s_on (store_answering (JObj ∅)) JUndefined (JStr "app"))
           "eyJ.jwt" ∅ eq_refl eq_refl eq_refl).
Defined.

Lemma missing_client_token_is_not_checked_witness :
  let this := k8s_on (store_answering (JObj {[ "auth" := JObj ∅ ]}))
                JUndefined (JStr "app") in
  snd (_authenticate entity_of (pod_fs "eyJ.jwt") this)
    = Rejected (Raised AuthError "permission denied")
  /\ logger_output (fst (_authenticate entity_of (pod_fs "eyJ.jwt") this)) =
     [LoggerCall Info "making authentication request: role_id=%s"
        [JUndefined];
      LoggerCall Debug "receive token: %s" [JUndefined]].
Proof.
  exact (missing_client_token_is_not_checked entity_of (pod_fs "eyJ.jwt")
           (k8s_on (store_answering (JObj {[ "auth" := JObj ∅ ]}))
              JUndefined (JStr "app"))
           "eyJ.jwt" {[ "auth" := JObj ∅ ]} ∅ eq_refl eq_refl eq_refl eq_refl).
Defined.

Lemma authenticate_runs_the_builder_witness :
  let this := k8s_on (store "s.tok") JUndefined (JStr "app") in
  _authenticate_traced lookup_entity (pod_fs "eyJ.jwt") this =
  ([LoggerCall Info "making authentication request: role_id=%s" [JUndefined];
    ReadFile serviceaccount_token_path;
    ConsoleLog "File is contains token eyJ.jwt";
    ApiRequest "POST" "/auth/kubernetes/login"
      (login_body (JStr "app") "eyJ.jwt");
    LoggerCall Debug "receive token: %s" [JStr "s.tok"];
    ApiRequest "GET" "/auth/token/lookup-self" JNull],
   Resolved {| credential := "s.tok"; issuedAt := 0; leaseDuration := 60;
               renewable := true; period := None |}).
Proof.
  exact (authenticate_runs_the_builder lookup_entity (pod_fs "eyJ.jwt")
           (k8s_on (store "s.tok") JUndefined (JStr "app"))
           "eyJ.jwt" (login_response "s.tok")
           (JObj {[ "client_token" := JStr "s.tok" ]}) (JStr "s.tok")
           eq_refl eq_refl eq_refl eq_refl).
Defined.

Lemma jwt_reaches_the_log_output_witness :
  let this := k8s_on down_store JUndefined (JStr "app") in
  ConsoleLog "File is contains token eyJ.jwt"
    ∈ log_output (fst (_authenticate entity_of (pod_fs "eyJ.jwt") this))
  /\ existsb (mentions "eyJ.jwt")
       (log_output (fst (_authenticate entity_of (pod_fs "eyJ.jwt") this)))
     = true.
Proof.
  exact (jwt_reaches_the_log_output entity_of (pod_fs "eyJ.jwt")
           (k8s_on down_store JUndefined (JStr "app")) "eyJ.jwt" eq_refl).
Defined.

End EdgeWitnesses.
